(** * Wall.py: the request validator and the endpoint it guards

    [Wall.py] installs one [before_request] hook on a Flask application.  The
    hook decodes [request.data] as UTF-8 and searches it with two regular
    expressions; a hit raises [ValueError], which Flask answers with status
    500.  Otherwise the view [submit_data] returns a fixed JSON payload.
    The hook is installed by [create_app], and [request.data] is the body
    of the request unless the body was parsed as form data.

    The development models, in this order: text and the Unicode case tables
    the [re] module consults, the UTF-8 decoder, the compiled form of the two
    patterns and the backtracking matcher, the hook and the view in a state
    and exception monad over the application object, and the request
    dispatch.  The properties of the validator follow. *)

From Stdlib Require Import ZArith List String Ascii Bool Lia.
From Stdlib.Strings Require Import Byte.
Import ListNotations.
Local Open Scope Z_scope.

(** ** Text *)

(** A Python [str] is a sequence of Unicode code points. *)
Definition codepoint := Z.
Definition text := list codepoint.

Definition ord (a : ascii) : codepoint := Z.of_N (N_of_ascii a).

(** The code points of an ASCII literal of the source. *)
Definition str (s : string) : text := map ord (list_ascii_of_string s).

(** ** Unicode simple case mappings

    [re] compares characters through the simple lower- and uppercase
    mappings of the Unicode database.  The patterns of [Wall.py] contain
    ASCII characters only, so the rows that matter are those with an ASCII
    member: the 26 letter pairs, U+0130 (capital I with dot above, lowercase
    [i]), U+212A (Kelvin sign, lowercase [k]), U+0131 (dotless i, uppercase
    [I]) and U+017F (long s, uppercase [S]).  The other rows relate
    non-ASCII code points to non-ASCII code points; they are left out, and
    such code points are mapped to themselves. *)
Module Unicode.

Definition tolower (ch : codepoint) : codepoint :=
  if (65 <=? ch) && (ch <=? 90) then ch + 32
  else if ch =? 0x130 then 0x69
  else if ch =? 0x212A then 0x6B
  else ch.

Definition toupper (ch : codepoint) : codepoint :=
  if (97 <=? ch) && (ch <=? 122) then ch - 32
  else if ch =? 0x131 then 0x49
  else if ch =? 0x17F then 0x53
  else ch.

(** [_sre.unicode_iscased] *)
Definition iscased (ch : codepoint) : bool :=
  negb (ch =? tolower ch) || negb (ch =? toupper ch).

(** [sre_compile._equivalences]: sets of lowercase characters with the
    same uppercase (rows with an ASCII member). *)
Definition equivalences : list (list codepoint) :=
  [ [0x69; 0x131]; [0x73; 0x17F] ].

(** [sre_compile._ignorecase_fixes]: the other members of the row of
    [lo], when it has one. *)
Definition ignorecase_fixes (lo : codepoint) : option (list codepoint) :=
  match find (existsb (Z.eqb lo)) equivalences with
  | Some row => Some (filter (fun j => negb (j =? lo)) row)
  | None => None
  end.

End Unicode.

(** ** UTF-8 *)

Definition bytes := list byte.

Definition byte_val (b : byte) : Z := Z.of_N (Byte.to_N b).

(** The bytes of an ASCII literal. *)
Definition encode_ascii (s : string) : bytes := map byte_of_ascii (list_ascii_of_string s).

Module Utf8.

Definition continuation (x : Z) : bool := (0x80 <=? x) && (x <=? 0xBF).

Definition surrogate (cp : Z) : bool := (0xD800 <=? cp) && (cp <=? 0xDFFF).

Definition payload (x : Z) : Z := Z.land x 0x3F.

(** [bytes.decode('utf-8')] with the default [errors='strict']: [None]
    stands for [UnicodeDecodeError].  Overlong forms, surrogates and code
    points above U+10FFFF are refused. *)
Fixpoint decode (bs : bytes) : option text :=
  match bs with
  | [] => Some []
  | b0 :: r0 =>
    let x0 := byte_val b0 in
    if x0 <? 0x80 then option_map (cons x0) (decode r0)
    else if x0 <? 0xC2 then None
    else if x0 <? 0xE0 then
      match r0 with
      | b1 :: r1 =>
        let x1 := byte_val b1 in
        let cp := Z.lor (Z.shiftl (Z.land x0 0x1F) 6) (payload x1) in
        if continuation x1 then option_map (cons cp) (decode r1) else None
      | _ => None
      end
    else if x0 <? 0xF0 then
      match r0 with
      | b1 :: b2 :: r2 =>
        let x1 := byte_val b1 in
        let x2 := byte_val b2 in
        let cp := Z.lor (Z.shiftl (Z.land x0 0x0F) 12)
                        (Z.lor (Z.shiftl (payload x1) 6) (payload x2)) in
        if continuation x1 && continuation x2
           && (0x800 <=? cp) && negb (surrogate cp)
        then option_map (cons cp) (decode r2) else None
      | _ => None
      end
    else if x0 <? 0xF5 then
      match r0 with
      | b1 :: b2 :: b3 :: r3 =>
        let x1 := byte_val b1 in
        let x2 := byte_val b2 in
        let x3 := byte_val b3 in
        let cp := Z.lor (Z.shiftl (Z.land x0 0x07) 18)
                        (Z.lor (Z.shiftl (payload x1) 12)
                               (Z.lor (Z.shiftl (payload x2) 6) (payload x3))) in
        if continuation x1 && continuation x2 && continuation x3
           && (0x10000 <=? cp) && (cp <=? 0x10FFFF)
        then option_map (cons cp) (decode r3) else None
      | _ => None
      end
    else None
  end.

End Utf8.

(** ** The [re] module *)

Module Sre.

(** The flags of [re.compile] that [Wall.py] uses.  A [str] pattern is
    always matched in Unicode mode. *)
Record Flags := { ignorecase : bool }.

Definition NOFLAG : Flags := {| ignorecase := false |}.
Definition IGNORECASE : Flags := {| ignorecase := true |}.

(** *** Parsed patterns

    The fragment of the pattern language the two patterns are written in:
    a literal character, a negated one-character class [[^c]], one or more
    repetitions [x+] of such an item, sequence and alternation.  A
    capturing group changes nothing about whether a match exists and is
    not represented. *)
Inductive item :=
| Lit (av : codepoint)
| NotLit (av : codepoint).

Inductive pattern :=
| Empty
| One (i : item)
| Plus (i : item)
| Seq (p q : pattern)
| Branch (p q : pattern).

(** A literal string, character by character. *)
Fixpoint literal (s : text) : pattern :=
  match s with
  | [] => Empty
  | c :: s' => Seq (One (Lit c)) (literal s')
  end.

(** [a|b|c...] *)
Fixpoint branches (p : pattern) (ps : list pattern) : pattern :=
  match ps with
  | [] => p
  | q :: ps' => Branch p (branches q ps')
  end.

(** *** Compiled code *)

(** The one-character opcodes. *)
Inductive opcode :=
| LITERAL (av : codepoint)
| NOT_LITERAL (av : codepoint)
| LITERAL_UNI_IGNORE (lo : codepoint)
| NOT_LITERAL_UNI_IGNORE (lo : codepoint)
| IN_UNI_IGNORE (negate : bool) (set : list codepoint).

Inductive code :=
| C_EMPTY
| C_OP (o : opcode)
| C_REPEAT_ONE (o : opcode)           (* greedy, at least once *)
| C_SEQ (c d : code)
| C_BRANCH (c d : code).

(** [sre_compile._compile] on a (negated) literal. *)
Definition compile_item (fl : Flags) (i : item) : opcode :=
  let (neg, av) := match i with Lit av => (false, av) | NotLit av => (true, av) end in
  let plain := if neg then NOT_LITERAL av else LITERAL av in
  if negb (ignorecase fl) then plain
  else if negb (Unicode.iscased av) then plain
  else
    let lo := Unicode.tolower av in
    match Unicode.ignorecase_fixes lo with
    | None => if neg then NOT_LITERAL_UNI_IGNORE lo else LITERAL_UNI_IGNORE lo
    | Some others => IN_UNI_IGNORE neg (lo :: others)
    end.

Fixpoint compile (fl : Flags) (p : pattern) : code :=
  match p with
  | Empty => C_EMPTY
  | One i => C_OP (compile_item fl i)
  | Plus i => C_REPEAT_ONE (compile_item fl i)
  | Seq p q => C_SEQ (compile fl p) (compile fl q)
  | Branch p q => C_BRANCH (compile fl p) (compile fl q)
  end.

(** A compiled pattern object. *)
Record Pattern := { flags : Flags; prog : code }.

Definition re_compile (p : pattern) (fl : Flags) : Pattern :=
  {| flags := fl; prog := compile fl p |}.

(** *** The matcher *)

Definition in_set (set : list codepoint) (ch : codepoint) : bool :=
  existsb (Z.eqb ch) set.

(** Does the opcode accept the character [ch] of the subject? *)
Definition op_match (o : opcode) (ch : codepoint) : bool :=
  match o with
  | LITERAL av => ch =? av
  | NOT_LITERAL av => negb (ch =? av)
  | LITERAL_UNI_IGNORE lo => Unicode.tolower ch =? lo
  | NOT_LITERAL_UNI_IGNORE lo => negb (Unicode.tolower ch =? lo)
  | IN_UNI_IGNORE negate set => xorb negate (in_set set (Unicode.tolower ch))
  end.

(** [x+]: take as many characters as the opcode accepts, then give them
    back one at a time until the rest [k] of the pattern matches. *)
Fixpoint repeat_one (o : opcode) (s : text) (k : text -> bool) : bool :=
  match s with
  | [] => false
  | ch :: s' => op_match o ch && (repeat_one o s' k || k s')
  end.

(** The backtracking matcher: [c] is matched at the head of [s] and the
    continuation [k] decides on what is left.  Alternatives are tried in
    order. *)
Fixpoint sre_match (c : code) (s : text) (k : text -> bool) : bool :=
  match c with
  | C_EMPTY => k s
  | C_OP o => match s with
              | [] => false
              | ch :: s' => op_match o ch && k s'
              end
  | C_REPEAT_ONE o => repeat_one o s k
  | C_SEQ c d => sre_match c s (fun s' => sre_match d s' k)
  | C_BRANCH c d => sre_match c s k || sre_match d s k
  end.

(** Is there a match that starts at the head of [s]? *)
Definition match_at (c : code) (s : text) : bool := sre_match c s (fun _ => true).

(** The scan over the start positions, the end of the subject included. *)
Fixpoint scan (c : code) (s : text) : bool :=
  match_at c s ||
  match s with
  | [] => false
  | _ :: s' => scan c s'
  end.

(** [Pattern.search], observed through [if]: a match object is true,
    [None] is false. *)
Definition search (p : Pattern) (s : text) : bool := scan (prog p) s.

(** *** What a piece of code matches *)

Inductive matches : code -> text -> Prop :=
| M_EMPTY : matches C_EMPTY []
| M_OP o ch : op_match o ch = true -> matches (C_OP o) [ch]
| M_REPEAT_ONE o w :
    w <> [] -> Forall (fun ch => op_match o ch = true) w ->
    matches (C_REPEAT_ONE o) w
| M_SEQ c d u v : matches c u -> matches d v -> matches (C_SEQ c d) (u ++ v)
| M_BRANCH_L c d w : matches c w -> matches (C_BRANCH c d) w
| M_BRANCH_R c d w : matches d w -> matches (C_BRANCH c d) w.

End Sre.

(** ** Flask: the application object, requests and responses *)

(** The functions the framework can be handed: the bound method
    [SecurityMiddleware.validate_request] and the view [submit_data]. *)
Inductive Callable :=
| validate_request_method
| submit_data_view.

(** The application object, as far as [Wall.py] touches it: the list
    [before_request] appends to, the mark [_got_first_request] that handling
    a request sets, and whether this Flask refuses setup methods such as
    [before_request] once the mark is set.  Current versions of Flask do;
    older ones do so in debug mode only, which nothing before [app.run]
    switches on. *)
Record Flask := {
  before_request_funcs : list Callable;
  got_first_request : bool;
  checks_setup : bool
}.

(** A POST to [/submit]: the bytes sent, and whether werkzeug parses them
    as form data, as it does for the content type
    [application/x-www-form-urlencoded] and does not for the
    [application/json] of the unit tests. *)
Record Request := { form_data : bool; stream : bytes }.

(** [request.data]: the bytes sent, but nothing when they were parsed as
    form data. *)
Definition data (request : Request) : bytes :=
  if form_data request then [] else stream request.

(** The JSON values [jsonify] is given here: an object with string members. *)
Inductive json :=
| JObject (members : list (string * string)).

Inductive Body :=
| JsonBody (j : json)
| InternalServerErrorPage.

Record Response := { status_code : Z; body : Body }.

Inductive Exception :=
| ValueError (msg : string)
| UnicodeDecodeError
| TypeError
| AssertionError.

(** The process state: the module global [app], and the record of the
    functions the framework has called so far, oldest first. *)
Record World := { app : Flask; calls : list Callable }.

(** State and exceptions.  A raised exception keeps the state reached. *)
Definition M (A : Type) : Type := World -> World * (Exception + A).

Definition ret {A} (a : A) : M A := fun w => (w, inr a).

Definition raise {A} (e : Exception) : M A := fun w => (w, inl e).

Definition bind {A B} (m : M A) (k : A -> M B) : M B :=
  fun w =>
    match m w with
    | (w', inr a) => k a w'
    | (w', inl e) => (w', inl e)
    end.

Definition get : M World := fun w => (w, inr w).

Definition modify (f : World -> World) : M unit := fun w => (f w, inr tt).

Notation "x <- m ;; k" := (bind m (fun x => k))
  (at level 61, m at next level, right associativity).
Notation "m ;;; k" := (bind m (fun _ => k))
  (at level 61, right associativity).

(** ** Wall.py *)

Import Sre.

(** [r"(SELECT|INSERT|UPDATE|DELETE|DROP|;|--|#)"] *)
Definition sql_injection_source : pattern :=
  branches (literal (str "SELECT"))
    [ literal (str "INSERT"); literal (str "UPDATE"); literal (str "DELETE");
      literal (str "DROP"); literal (str ";"); literal (str "--");
      literal (str "#") ].

(** [r"<[^>]+>"] *)
Definition xss_source : pattern :=
  Seq (One (Lit (ord "<"))) (Seq (Plus (NotLit (ord ">"))) (One (Lit (ord ">")))).

Definition sql_injection_patterns : Pattern := re_compile sql_injection_source IGNORECASE.

Definition xss_patterns : Pattern := re_compile xss_source NOFLAG.

(** [bytes.decode('utf-8')] as a statement that may raise. *)
Definition decode (b : bytes) : M text :=
  match Utf8.decode b with
  | Some t => ret t
  | None => raise UnicodeDecodeError
  end.

(** The two rejections of the validator.  The specification calls the first
    kind [sql_injection_suspected] and the second [xss_suspected]. *)
Definition sql_injection_suspected : Exception :=
  ValueError "Potential SQL injection detected.".

Definition xss_suspected : Exception :=
  ValueError "Potential XSS attack detected.".

(** [SecurityMiddleware.validate_request].  The body is decoded anew for
    each check.  Returning [tt] is Python's [None]. *)
Definition validate_request (request : Request) : M unit :=
  t <- decode (data request) ;;
  if search sql_injection_patterns t then raise sql_injection_suspected
  else
    t' <- decode (data request) ;;
    if search xss_patterns t' then raise xss_suspected
    else ret tt.

(** [Flask.before_request]: the function is appended to the hooks, unless
    the application has handled a request and this Flask checks for that;
    then the setup method raises [AssertionError] and appends nothing. *)
Definition before_request (f : Callable) : M unit :=
  w <- get ;;
  if checks_setup (app w) && got_first_request (app w) then raise AssertionError
  else
    modify (fun w =>
      {| app := {| before_request_funcs := before_request_funcs (app w) ++ [f];
                   got_first_request := got_first_request (app w);
                   checks_setup := checks_setup (app w) |};
         calls := calls w |}).

(** [SecurityMiddleware.__init__]: [self.app] is the global application
    itself, and the bound method becomes a hook of it. *)
Definition SecurityMiddleware_init : M unit :=
  before_request validate_request_method.

(** [create_app] *)
Definition create_app : M unit := SecurityMiddleware_init.

Definition success_payload : json :=
  JObject [("message", "Data submitted successfully!")]%string.

(** The answer of the view. *)
Definition success_response : Response :=
  {| status_code := 200; body := JsonBody success_payload |}.

(** [submit_data]: [jsonify(...), 200]. *)
Definition submit_data (request : Request) : M Response :=
  ret success_response.

(** The framework calling one of the functions: the call is recorded, then
    the function runs.  A hook that returns [None] lets the request go on. *)
Definition invoke (f : Callable) (request : Request) : M (option Response) :=
  modify (fun w => {| app := app w; calls := calls w ++ [f] |}) ;;;
  match f with
  | validate_request_method => validate_request request ;;; ret None
  | submit_data_view => r <- submit_data request ;; ret (Some r)
  end.

(** The hooks run in the order of their registration, up to the first one
    that raises or answers. *)
Fixpoint run_hooks (fs : list Callable) (request : Request) : M (option Response) :=
  match fs with
  | [] => ret None
  | f :: fs' =>
    rv <- invoke f request ;;
    match rv with
    | Some r => ret (Some r)
    | None => run_hooks fs' request
    end
  end.

(** [Flask.preprocess_request] *)
Definition preprocess_request (request : Request) : M (option Response) :=
  w <- get ;;
  run_hooks (before_request_funcs (app w)) request.

(** [Flask.dispatch_request] of a POST to [/submit]: the rule of
    [@app.route('/submit', methods=['POST'])] selects [submit_data].  A view
    that returns [None] is a [TypeError]. *)
Definition dispatch_request (request : Request) : M Response :=
  rv <- invoke submit_data_view request ;;
  match rv with
  | Some r => ret r
  | None => raise TypeError
  end.

(** The state [w] with the application marked as having handled a
    request. *)
Definition served (w : World) : World :=
  {| app := {| before_request_funcs := before_request_funcs (app w);
               got_first_request := true;
               checks_setup := checks_setup (app w) |};
     calls := calls w |}.

(** [Flask.full_dispatch_request]: the mark is set before anything runs. *)
Definition full_dispatch_request (request : Request) : M Response :=
  modify served ;;;
  rv <- preprocess_request request ;;
  match rv with
  | Some r => ret r
  | None => dispatch_request request
  end.

(** [Flask.handle_exception]: no handler is registered, so any exception
    becomes the response of an internal server error. *)
Definition handle_exception (e : Exception) : Response :=
  {| status_code := 500; body := InternalServerErrorPage |}.

(** [Flask.wsgi_app]: one POST to [/submit], start to finish. *)
Definition wsgi_app (request : Request) (w : World) : World * Response :=
  match full_dispatch_request request w with
  | (w', inr r) => (w', r)
  | (w', inl e) => (w', handle_exception e)
  end.

(** The module after import: no hook yet, no request handled, nothing
    called.  [checks] tells the two kinds of Flask apart. *)
Definition imported (checks : bool) : World :=
  {| app := {| before_request_funcs := [];
               got_first_request := false;
               checks_setup := checks |};
     calls := [] |}.

(** The imported module on a current Flask. *)
Definition module_loaded : World := imported true.

(** The state after [n] calls of [create_app] on [w]. *)
Fixpoint created (n : nat) (w : World) : World :=
  match n with
  | O => w
  | S n' => fst (create_app (created n' w))
  end.

(** The security middleware is installed in [w]: every hook is the
    validator, and there is at least one. *)
Definition secured (w : World) : Prop :=
  before_request_funcs (app w) <> [] /\
  Forall (fun f => f = validate_request_method) (before_request_funcs (app w)).

(** The request of a POST to [/submit] with the given body, parsed as form
    data or not. *)
Definition post_as (form : bool) (b : bytes) : Request :=
  {| form_data := form; stream := b |}.

(** The body is no form data, so that [request.data] is the body: the
    requests of the unit tests. *)
Definition post (b : bytes) : Request := post_as false b.

(** The body is sent as a form. *)
Definition post_form (b : bytes) : Request := post_as true b.

(** The response to the request, and the functions called for it. *)
Definition response_to (request : Request) (w : World) : Response :=
  snd (wsgi_app request w).

Definition called_for (request : Request) (w : World) : list Callable :=
  skipn (List.length (calls w)) (calls (fst (wsgi_app request w))).

(** The state [w] after the framework has called [fs] on top of it. *)
Definition logged (w : World) (fs : list Callable) : World :=
  {| app := app w; calls := calls w ++ fs |}.

(** The bodies the unit tests of [Wall.py] post. *)
Definition dq : string := String "034"%char EmptyString.

Definition json_name (v : string) : string :=
  ("{" ++ dq ++ "name" ++ dq ++ ": " ++ dq ++ v ++ dq ++ "}")%string.

Definition valid_submission : bytes := encode_ascii (json_name "John Doe").

Definition sql_injection_attempt : bytes :=
  encode_ascii (json_name "John Doe; DROP TABLE users;").

Definition xss_attempt : bytes :=
  encode_ascii (json_name "<script>alert(1)</script>").

Definition empty_submission : bytes := [].

(** ** The words of the specification *)

(** Two characters are equal up to letter case when they have the same
    lowercase or the same uppercase.  For an ASCII letter these are its two
    ASCII forms and, by the Unicode tables, U+0130 and U+0131 for [I],
    U+017F for [S] and U+212A for [K]. *)
Definition caseless (a b : codepoint) : Prop :=
  Unicode.tolower a = Unicode.tolower b \/ Unicode.toupper a = Unicode.toupper b.

(** [w] is a substring of [t]. *)
Definition occurs_in (w t : text) : Prop :=
  exists pre suf, t = pre ++ w ++ suf.

(** [t] contains the token, compared case-insensitively. *)
Definition contains_caseless (tok t : text) : Prop :=
  exists w, Forall2 caseless tok w /\ occurs_in w t.

Definition sql_tokens : list text :=
  map str ["SELECT"; "INSERT"; "UPDATE"; "DELETE"; "DROP"; ";"; "--"; "#"]%string.

Definition contains_sql_token (t : text) : Prop :=
  exists tok, In tok sql_tokens /\ contains_caseless tok t.

Definition lt_sign : codepoint := ord "<".
Definition gt_sign : codepoint := ord ">".

(** ['<'], then one or more characters none of which is ['>'], then ['>']. *)
Definition tag_shaped (w : text) : Prop :=
  exists mid, w = lt_sign :: mid ++ [gt_sign] /\ mid <> [] /\
              Forall (fun ch => ch <> gt_sign) mid.

Definition contains_tag (t : text) : Prop :=
  exists w, tag_shaped w /\ occurs_in w t.

(** Every ['<'] of [t] is at once followed by ['>'] (the pair ["<>"]) or has
    no ['>'] anywhere after it (a lone ['<']); a ['>'] may stand anywhere. *)
Definition brackets_empty_or_lone (t : text) : Prop :=
  forall pre rest, t = pre ++ lt_sign :: rest ->
    (exists rest', rest = gt_sign :: rest') \/ ~ In gt_sign rest.

(** The outcomes of the validator. *)
Definition accepts (r : Exception + unit) : Prop := r = inr tt.
Definition rejects (kind : Exception) (r : Exception + unit) : Prop := r = inl kind.

(** The validator on the body of a request, in the state [w]. *)
Definition validator (request : Request) (w : World) : Exception + unit :=
  snd (validate_request request w).

(** ** The states the program reaches, and notions on characters *)

(** After the import of the module, [create_app] is called and requests are
    served, in any order. *)
Inductive reachable : World -> Prop :=
| reach_import checks : reachable (imported checks)
| reach_create_app w : reachable w -> reachable (fst (create_app w))
| reach_request w request : reachable w -> reachable (fst (wsgi_app request w)).

(** The same character, or the two ASCII forms of one letter. *)
Definition same_ascii_case (a b : codepoint) : Prop :=
  a = b \/ (65 <= a <= 90 /\ b = a + 32) \/ (97 <= a <= 122 /\ b = a - 32).

Definition ascii_letter (ch : codepoint) : bool :=
  ((65 <=? ch) && (ch <=? 90)) || ((97 <=? ch) && (ch <=? 122)).

(** The opcodes of a piece of code. *)
Fixpoint opcodes (c : code) : list opcode :=
  match c with
  | C_EMPTY => []
  | C_OP o => [o]
  | C_REPEAT_ONE o => [o]
  | C_SEQ c d => opcodes c ++ opcodes d
  | C_BRANCH c d => opcodes c ++ opcodes d
  end.

(** An opcode that cannot tell the two ASCII forms of a letter apart: it
    looks at the lowercase of the character, or compares with a character
    that is no ASCII letter. *)
Definition case_blind (o : opcode) : bool :=
  match o with
  | LITERAL av | NOT_LITERAL av => negb (ascii_letter av)
  | LITERAL_UNI_IGNORE _ | NOT_LITERAL_UNI_IGNORE _ | IN_UNI_IGNORE _ _ => true
  end.

(** The characters a hit of one of the two patterns can begin with: the
    case forms of S, I, U and D, and [;], [-], [#] and [<]. *)
Definition hit_start (ch : codepoint) : bool :=
  in_set [83; 115; 0x17F; 73; 105; 0x130; 0x131; 85; 117; 68; 100;
          59; 45; 35; 60] ch.

(** ** Tactics for the comparisons on code points *)

Ltac bool_to_Z :=
  repeat match goal with
  | H : (_ && _) = true |- _ => apply andb_true_iff in H; destruct H
  | H : (_ && _) = false |- _ => apply andb_false_iff in H; destruct H
  | H : (_ <=? _) = true |- _ => apply Z.leb_le in H
  | H : (_ <=? _) = false |- _ => apply Z.leb_gt in H
  | H : (_ =? _) = true |- _ => apply Z.eqb_eq in H
  | H : (_ =? _) = false |- _ => apply Z.eqb_neq in H
  end.

Ltac split_tests :=
  repeat match goal with
  | |- context [if ?b then _ else _] => let E := fresh "E" in destruct b eqn:E
  end; bool_to_Z.

Ltac split_cmp :=
  repeat (match goal with
          | |- context [?a =? ?b] => destruct (Z.eqb_spec a b)
          | |- context [?a <=? ?b] => destruct (Z.leb_spec a b)
          end; try lia).

(** * The matcher finds exactly what the code matches *)

Lemma repeat_one_spec o s k :
  repeat_one o s k = true <->
  exists u v, s = u ++ v /\ u <> [] /\
              Forall (fun ch => op_match o ch = true) u /\ k v = true.
Proof.
  induction s as [|ch s IH]; simpl.
  - split; [discriminate|].
    intros (u & v & E & Hne & _). destruct u; [congruence|discriminate].
  - rewrite andb_true_iff, orb_true_iff, IH. split.
    + intros [Hm [(u & v & E & Hne & Hall & Hk) | Hk]].
      * exists (ch :: u), v. subst. repeat split; auto. discriminate.
      * exists [ch], s. repeat split; auto. discriminate.
    + intros (u & v & E & Hne & Hall & Hk).
      destruct u as [|c u]; [congruence|].
      simpl in E. injection E as -> ->.
      inversion Hall; subst. split; [assumption|].
      destruct u as [|c' u]; [right; assumption|].
      left. exists (c' :: u), v. repeat split; auto. discriminate.
Qed.

Lemma sre_match_spec c :
  forall s k,
    sre_match c s k = true <->
    exists u v, s = u ++ v /\ matches c u /\ k v = true.
Proof.
  induction c as [|o|o|c IHc d IHd|c IHc d IHd]; intros s k; simpl.
  - split.
    + intros H. exists [], s. repeat split; [constructor|assumption].
    + intros (u & v & -> & Hm & Hk). inversion Hm; subst. assumption.
  - destruct s as [|ch s].
    + split; [discriminate|].
      intros (u & v & E & Hm & _). inversion Hm; subst. discriminate.
    + rewrite andb_true_iff. split.
      * intros [Ho Hk]. exists [ch], s. repeat split; [constructor|]; assumption.
      * intros (u & v & E & Hm & Hk). inversion Hm; subst.
        simpl in E. injection E as -> ->. split; assumption.
  - rewrite repeat_one_spec. split.
    + intros (u & v & E & Hne & Hall & Hk). exists u, v.
      repeat split; [assumption|constructor; assumption|assumption].
    + intros (u & v & E & Hm & Hk). inversion Hm; subst.
      exists u, v. repeat split; assumption.
  - rewrite IHc. split.
    + intros (u & v & -> & Hm & Hk). apply IHd in Hk.
      destruct Hk as (u' & v' & -> & Hm' & Hk').
      exists (u ++ u'), v'. rewrite app_assoc.
      repeat split; [constructor|]; assumption.
    + intros (u & v & -> & Hm & Hk). inversion Hm; subst.
      exists u0, (v0 ++ v). rewrite app_assoc.
      repeat split; [assumption|]. apply IHd. exists v0, v. auto.
  - rewrite orb_true_iff, IHc, IHd. split.
    + intros [(u & v & E & Hm & Hk)|(u & v & E & Hm & Hk)]; exists u, v;
        repeat split; auto using M_BRANCH_L, M_BRANCH_R.
    + intros (u & v & E & Hm & Hk). inversion Hm; subst;
        [left|right]; exists u, v; auto.
Qed.

Lemma match_at_spec c s :
  match_at c s = true <-> exists u v, s = u ++ v /\ matches c u.
Proof.
  unfold match_at. rewrite sre_match_spec. split.
  - intros (u & v & E & Hm & _). eauto.
  - intros (u & v & E & Hm). eauto.
Qed.

Lemma scan_spec c s :
  scan c s = true <-> exists w, matches c w /\ occurs_in w s.
Proof.
  induction s as [|ch s IH].
  - simpl. rewrite orb_false_r, match_at_spec. split.
    + intros (u & v & E & Hm). exists u. split; [assumption|]. exists [], v. assumption.
    + intros (w & Hm & pre & suf & E).
      destruct pre; [|discriminate]. exists w, suf. auto.
  - simpl. rewrite orb_true_iff, match_at_spec, IH. split.
    + intros [(u & v & E & Hm)|(w & Hm & pre & suf & E)].
      * exists u. split; [assumption|]. exists [], v. assumption.
      * exists w. split; [assumption|]. exists (ch :: pre), suf. simpl. congruence.
    + intros (w & Hm & pre & suf & E). destruct pre as [|c0 pre].
      * left. exists w, suf. auto.
      * right. simpl in E. injection E as _ ->. exists w. split; [assumption|].
        exists pre, suf. reflexivity.
Qed.

Lemma search_spec p s :
  search p s = true <-> exists w, matches (prog p) w /\ occurs_in w s.
Proof. apply scan_spec. Qed.

(** What the compiled form of a literal and of an alternation match. *)

Lemma matches_literal fl tok w :
  matches (compile fl (literal tok)) w <->
  Forall2 (fun a ch => op_match (compile_item fl (Lit a)) ch = true) tok w.
Proof.
  revert w. induction tok as [|a tok IH]; intros w; simpl.
  - split.
    + intros H. inversion H. constructor.
    + intros H. inversion H. constructor.
  - split.
    + intros H. inversion H as [| | |c0 d0 u v Hu Hv| |]; subst.
      inversion Hu; subst. simpl. constructor; [assumption|]. apply IH. assumption.
    + intros H. inversion H as [|a' ch tok' w' Ha Hw]; subst.
      change (ch :: w') with ([ch] ++ w'). constructor.
      * constructor. assumption.
      * apply IH. assumption.
Qed.

Lemma matches_branches fl p ps w :
  matches (compile fl (branches p ps)) w <->
  exists q, In q (p :: ps) /\ matches (compile fl q) w.
Proof.
  revert p. induction ps as [|q ps IH]; intros p; simpl.
  - split.
    + intros H. exists p. auto.
    + intros (q & [->|[]] & H). assumption.
  - split.
    + intros H. inversion H; subst.
      * exists p. auto.
      * apply IH in H3. destruct H3 as (q' & Hin & Hq'). exists q'. simpl in Hin. tauto.
    + intros (q' & [->|Hin] & Hq').
      * apply M_BRANCH_L. assumption.
      * apply M_BRANCH_R. apply IH. exists q'. auto.
Qed.

(** * Case-insensitive literals *)

Lemma tolower_cases ch :
  (65 <= ch <= 90 /\ Unicode.tolower ch = ch + 32) \/
  (ch = 304 /\ Unicode.tolower ch = 105) \/
  (ch = 8490 /\ Unicode.tolower ch = 107) \/
  (~ 65 <= ch <= 90 /\ ch <> 304 /\ ch <> 8490 /\ Unicode.tolower ch = ch).
Proof. unfold Unicode.tolower. split_tests; lia. Qed.

Lemma toupper_cases ch :
  (97 <= ch <= 122 /\ Unicode.toupper ch = ch - 32) \/
  (ch = 305 /\ Unicode.toupper ch = 73) \/
  (ch = 383 /\ Unicode.toupper ch = 83) \/
  (~ 97 <= ch <= 122 /\ ch <> 305 /\ ch <> 383 /\ Unicode.toupper ch = ch).
Proof. unfold Unicode.toupper. split_tests; lia. Qed.

(** The opcode [re.IGNORECASE] compiles an ASCII literal to. *)
Lemma compile_ignorecase_ascii av :
  0 <= av < 128 ->
  compile_item IGNORECASE (Lit av) =
    if (av =? 73) || (av =? 105) then IN_UNI_IGNORE false [105; 305]
    else if (av =? 83) || (av =? 115) then IN_UNI_IGNORE false [115; 383]
    else if (65 <=? av) && (av <=? 90) then LITERAL_UNI_IGNORE (av + 32)
    else if (97 <=? av) && (av <=? 122) then LITERAL_UNI_IGNORE av
    else LITERAL av.
Proof.
  intros Hav.
  destruct (Z.eqb_spec av 73) as [->|H73]; [reflexivity|].
  destruct (Z.eqb_spec av 105) as [->|H105]; [reflexivity|].
  destruct (Z.eqb_spec av 83) as [->|H83]; [reflexivity|].
  destruct (Z.eqb_spec av 115) as [->|H115]; [reflexivity|].
  unfold compile_item, Unicode.iscased, Unicode.ignorecase_fixes,
    Unicode.equivalences.
  destruct (tolower_cases av) as [[Rl ->]|[[Rl ->]|[[Rl ->]|(Rl & _ & _ & ->)]]];
    destruct (toupper_cases av) as [[Ru ->]|[[Ru ->]|[[Ru ->]|(Ru & _ & _ & ->)]]];
    try lia; simpl; split_cmp; simpl; split_cmp; reflexivity.
Qed.

(** Under [re.IGNORECASE] an ASCII literal of the pattern accepts exactly
    the characters equal to it up to letter case. *)
Lemma ignorecase_literal av ch :
  0 <= av < 128 ->
  op_match (compile_item IGNORECASE (Lit av)) ch = true <-> caseless av ch.
Proof.
  intros Hav. rewrite (compile_ignorecase_ascii av Hav). unfold caseless.
  destruct (tolower_cases av) as [[La ->]|[[La ->]|[[La ->]|(La & _ & _ & ->)]]];
    try lia;
    (destruct (toupper_cases av) as [[Ua ->]|[[Ua ->]|[[Ua ->]|(Ua & _ & _ & ->)]]];
     try lia);
    split_cmp; simpl;
    (destruct (tolower_cases ch) as [[Lc ->]|[[Lc ->]|[[Lc ->]|(Lc & Lc1 & Lc2 & ->)]]]);
    (destruct (toupper_cases ch) as [[Uc ->]|[[Uc ->]|[[Uc ->]|(Uc & Uc1 & Uc2 & ->)]]];
     try lia);
    simpl; split_cmp;
    (split; [intros; lia | intros; first [reflexivity | lia]]).
Qed.

(** * What the two patterns find *)

Lemma Forall2_iff_on {A B} (R : A -> Prop) (P Q : A -> B -> Prop) l l' :
  Forall R l ->
  (forall a b, R a -> (P a b <-> Q a b)) ->
  Forall2 P l l' <-> Forall2 Q l l'.
Proof.
  intros HR HPQ. split; intros H; induction H; constructor;
    inversion HR; subst; auto; apply (HPQ _ _ H3); assumption.
Qed.

Lemma sql_tokens_ascii tok :
  In tok sql_tokens -> Forall (fun a => 0 <= a < 128) tok.
Proof.
  intros Hin.
  assert (H : forallb (fun a => (0 <=? a) && (a <? 128)) tok = true).
  { simpl in Hin. repeat (destruct Hin as [<-|Hin]; [reflexivity|]). destruct Hin. }
  apply Forall_forall. intros a Ha.
  rewrite forallb_forall in H. apply H in Ha.
  apply andb_true_iff in Ha. destruct Ha as [Ha1 Ha2].
  apply Z.leb_le in Ha1. apply Z.ltb_lt in Ha2. split; assumption.
Qed.

(** The source pattern is the alternation of the tokens. *)
Lemma sql_source_tokens :
  sql_injection_source =
  match map literal sql_tokens with
  | p :: ps => branches p ps
  | [] => Empty
  end.
Proof. reflexivity. Qed.

Lemma literal_caseless tok w :
  Forall (fun a => 0 <= a < 128) tok ->
  matches (compile IGNORECASE (literal tok)) w <-> Forall2 caseless tok w.
Proof.
  intros Hascii. rewrite matches_literal.
  apply Forall2_iff_on with (R := fun a => 0 <= a < 128); [assumption|].
  intros a b Ha. apply ignorecase_literal. assumption.
Qed.

Lemma sql_matches w :
  matches (prog sql_injection_patterns) w <->
  exists tok, In tok sql_tokens /\ Forall2 caseless tok w.
Proof.
  unfold sql_injection_patterns, re_compile, prog, sql_injection_source.
  rewrite matches_branches.
  change (literal (str "SELECT") :: _) with (map literal sql_tokens).
  split.
  - intros (q & Hin & Hm). apply in_map_iff in Hin. destruct Hin as (tok & <- & Hin).
    exists tok. split; [assumption|].
    apply literal_caseless; [apply sql_tokens_ascii|]; assumption.
  - intros (tok & Hin & Hm). exists (literal tok). split.
    + apply in_map. assumption.
    + apply literal_caseless; [apply sql_tokens_ascii|]; assumption.
Qed.

Lemma xss_matches w :
  matches (prog xss_patterns) w <-> tag_shaped w.
Proof.
  unfold xss_patterns, re_compile, prog, xss_source, tag_shaped. simpl. split.
  - intros H.
    inversion H as [| | |c d u v Hu Hv| |]; subst.
    inversion Hu as [|o ch Hch| | | |]; subst.
    inversion Hv as [| | |c d u' v' Hu' Hv'| |]; subst.
    inversion Hu' as [| |o w' Hne Hall| | |]; subst.
    inversion Hv' as [|o ch' Hch'| | | |]; subst.
    simpl in Hch, Hch'. apply Z.eqb_eq in Hch, Hch'. subst.
    exists u'. repeat split; [assumption|].
    eapply Forall_impl; [|exact Hall]. simpl. intros a Ha.
    apply negb_true_iff, Z.eqb_neq in Ha. exact Ha.
  - intros (mid & -> & Hne & Hall).
    change (lt_sign :: mid ++ [gt_sign]) with ([lt_sign] ++ mid ++ [gt_sign]).
    constructor; [constructor; reflexivity|].
    constructor; [|constructor; reflexivity].
    constructor; [assumption|].
    eapply Forall_impl; [|exact Hall]. simpl. intros a Ha.
    apply negb_true_iff, Z.eqb_neq. exact Ha.
Qed.

(** The SQL check hits exactly the texts that contain one of the tokens,
    compared case-insensitively. *)
Lemma sql_search t :
  search sql_injection_patterns t = true <-> contains_sql_token t.
Proof.
  rewrite search_spec. unfold contains_sql_token, contains_caseless. split.
  - intros (w & Hm & Ho). apply sql_matches in Hm. destruct Hm as (tok & Hin & HF).
    exists tok. split; [assumption|]. exists w. auto.
  - intros (tok & Hin & w & HF & Ho). exists w. split; [|assumption].
    apply sql_matches. exists tok. auto.
Qed.

(** The XSS check hits exactly the texts with a tag-shaped substring. *)
Lemma xss_search t :
  search xss_patterns t = true <-> contains_tag t.
Proof.
  rewrite search_spec. unfold contains_tag. split.
  - intros (w & Hm & Ho). exists w. split; [apply xss_matches|]; assumption.
  - intros (w & Hm & Ho). exists w. split; [apply xss_matches|]; assumption.
Qed.

Lemma lone_brackets_no_tag t :
  brackets_empty_or_lone t -> ~ contains_tag t.
Proof.
  intros Hb (w & (mid & -> & Hne & Hall) & pre & suf & ->).
  destruct (Hb pre ((mid ++ [gt_sign]) ++ suf)) as [(rest' & E)|Hnot].
  - reflexivity.
  - destruct mid as [|ch mid]; [congruence|].
    simpl in E. injection E as -> _. inversion Hall; subst. congruence.
  - apply Hnot. apply in_or_app. left. apply in_or_app. right. left. reflexivity.
Qed.

Lemma first_occurrence (x : Z) (l : list Z) :
  In x l ->
  exists l1 l2, l = l1 ++ x :: l2 /\ Forall (fun y => y <> x) l1.
Proof.
  induction l as [|y l IH]; intros Hin; [destruct Hin|].
  destruct (Z.eq_dec y x) as [->|Hy].
  - exists [], l. split; [reflexivity|constructor].
  - destruct Hin as [E|Hin]; [congruence|].
    destruct (IH Hin) as (l1 & l2 & -> & Hall).
    exists (y :: l1), l2. split; [reflexivity|]. constructor; assumption.
Qed.

Lemma no_tag_lone_brackets t :
  ~ contains_tag t -> brackets_empty_or_lone t.
Proof.
  intros Hn pre rest ->.
  destruct rest as [|ch rest]; [right; intros []|].
  destruct (Z.eq_dec ch gt_sign) as [->|Hch]; [left; eauto|].
  right. intros Hin. apply Hn.
  destruct (first_occurrence gt_sign (ch :: rest) Hin) as (l1 & l2 & E & Hall).
  exists (lt_sign :: l1 ++ [gt_sign]). split.
  - exists l1. repeat split; [|assumption].
    destruct l1; [|discriminate]. simpl in E. congruence.
  - exists pre, l2. rewrite E. simpl. rewrite <- app_assoc. reflexivity.
Qed.

(** * The validator *)

(** The hook leaves the state alone, and its outcome is this function of
    the body. *)
Lemma validate_request_run request w :
  validate_request request w =
  (w, match Utf8.decode (data request) with
      | None => inl UnicodeDecodeError
      | Some t =>
        if search sql_injection_patterns t then inl sql_injection_suspected
        else if search xss_patterns t then inl xss_suspected
        else inr tt
      end).
Proof.
  unfold validate_request, decode, bind, raise, ret.
  destruct (Utf8.decode (data request)) as [t|]; [|reflexivity].
  destruct (search sql_injection_patterns t); [reflexivity|].
  destruct (search xss_patterns t); reflexivity.
Qed.

Lemma validator_frame request w w' :
  validator request w = validator request w'.
Proof. unfold validator. rewrite !validate_request_run. reflexivity. Qed.

Lemma data_post b : data (post b) = b.
Proof. reflexivity. Qed.

Lemma validator_text b t w :
  Utf8.decode b = Some t ->
  validator (post b) w =
  if search sql_injection_patterns t then inl sql_injection_suspected
  else if search xss_patterns t then inl xss_suspected
  else inr tt.
Proof.
  intros Hd. unfold validator. rewrite validate_request_run.
  change (data (post b)) with b. rewrite Hd. reflexivity.
Qed.

(** A body parsed as form data leaves [request.data] empty, and the
    validator passes it. *)
Lemma validator_form b w : validator (post_form b) w = inr tt.
Proof. unfold validator. rewrite validate_request_run. reflexivity. Qed.

(** * The request dispatch *)

Lemma logged_nil w : logged w [] = w.
Proof. destruct w as [a c]. unfold logged. simpl. rewrite app_nil_r. reflexivity. Qed.

Lemma logged_logged w fs gs : logged (logged w fs) gs = logged w (fs ++ gs).
Proof. unfold logged. simpl. rewrite app_assoc. reflexivity. Qed.

Lemma skipn_logged w fs :
  skipn (List.length (calls w)) (calls (logged w fs)) = fs.
Proof.
  unfold logged. simpl. induction (calls w) as [|c cs IH]; simpl; auto.
Qed.

Lemma skipn_served_logged w fs :
  skipn (List.length (calls w)) (calls (logged (served w) fs)) = fs.
Proof. apply (skipn_logged (served w) fs). Qed.

Lemma validator_served request w :
  validator request (served w) = validator request w.
Proof. apply validator_frame. Qed.

Lemma invoke_validate request w :
  invoke validate_request_method request w =
  (logged w [validate_request_method],
   match validator request w with
   | inl e => inl e
   | inr _ => inr None
   end).
Proof.
  unfold invoke, bind, modify, validator. rewrite !validate_request_run. simpl.
  destruct (Utf8.decode (data request)) as [t|]; [|reflexivity].
  destruct (search sql_injection_patterns t); [reflexivity|].
  destruct (search xss_patterns t); reflexivity.
Qed.

(** While the validator accepts, every hook is called, one after the other. *)
Lemma run_hooks_pass fs request :
  Forall (fun f => f = validate_request_method) fs ->
  forall w, validator request w = inr tt ->
            run_hooks fs request w = (logged w fs, inr None).
Proof.
  induction 1 as [|f fs -> _ IH]; intros w Hv; simpl.
  - unfold ret. rewrite logged_nil. reflexivity.
  - unfold bind. rewrite invoke_validate, Hv.
    rewrite IH; [|rewrite <- Hv; apply validator_frame].
    rewrite logged_logged. reflexivity.
Qed.

(** When the validator raises, the first hook ends the request. *)
Lemma run_hooks_raise fs request w e :
  fs <> [] ->
  Forall (fun f => f = validate_request_method) fs ->
  validator request w = inl e ->
  run_hooks fs request w = (logged w [validate_request_method], inl e).
Proof.
  intros Hne Hall Hv. destruct fs as [|f fs]; [congruence|].
  inversion Hall; subst. simpl. unfold bind. rewrite invoke_validate, Hv.
  reflexivity.
Qed.

Lemma wsgi_app_pass request w :
  Forall (fun f => f = validate_request_method) (before_request_funcs (app w)) ->
  validator request w = inr tt ->
  wsgi_app request w =
  (logged (served w) (before_request_funcs (app w) ++ [submit_data_view]),
   {| status_code := 200; body := JsonBody success_payload |}).
Proof.
  intros Hall Hv. rewrite <- validator_served in Hv.
  unfold wsgi_app, full_dispatch_request, preprocess_request, bind, get, modify.
  change (before_request_funcs (app (served w))) with (before_request_funcs (app w)).
  rewrite run_hooks_pass by assumption.
  unfold dispatch_request, invoke, submit_data, bind, modify, ret. simpl.
  rewrite <- logged_logged. reflexivity.
Qed.

Lemma wsgi_app_raise request w e :
  secured w ->
  validator request w = inl e ->
  wsgi_app request w =
  (logged (served w) [validate_request_method], handle_exception e).
Proof.
  intros [Hne Hall] Hv. rewrite <- validator_served in Hv.
  unfold wsgi_app, full_dispatch_request, preprocess_request, bind, get, modify.
  change (before_request_funcs (app (served w))) with (before_request_funcs (app w)).
  rewrite run_hooks_raise with (e := e) by assumption. reflexivity.
Qed.

(** The setup is open in [w]: [before_request] does not refuse. *)
Lemma create_app_open w :
  checks_setup (app w) && got_first_request (app w) = false ->
  create_app w =
  ({| app := {| before_request_funcs :=
                  before_request_funcs (app w) ++ [validate_request_method];
                got_first_request := got_first_request (app w);
                checks_setup := checks_setup (app w) |};
      calls := calls w |}, inr tt).
Proof.
  intros Hopen.
  unfold create_app, SecurityMiddleware_init, before_request, bind, get, modify.
  rewrite Hopen. reflexivity.
Qed.

(** The setup is closed in [w]: [create_app] raises and changes nothing. *)
Lemma create_app_closed w :
  checks_setup (app w) && got_first_request (app w) = true ->
  create_app w = (w, inl AssertionError).
Proof.
  intros Hclosed.
  unfold create_app, SecurityMiddleware_init, before_request, bind, get, raise.
  rewrite Hclosed. reflexivity.
Qed.

Lemma repeat_snoc (f : Callable) n : repeat f n ++ [f] = repeat f (S n).
Proof. induction n as [|n IH]; [reflexivity|]. simpl. rewrite IH. reflexivity. Qed.

Lemma created_open n w :
  checks_setup (app w) && got_first_request (app w) = false ->
  before_request_funcs (app (created n w)) =
    before_request_funcs (app w) ++ repeat validate_request_method n /\
  got_first_request (app (created n w)) = got_first_request (app w) /\
  checks_setup (app (created n w)) = checks_setup (app w) /\
  calls (created n w) = calls w.
Proof.
  intros Hopen. induction n as [|n (IHh & IHg & IHc & IHl)].
  - simpl. rewrite app_nil_r. repeat split.
  - change (created (S n) w) with (fst (create_app (created n w))).
    rewrite create_app_open by (rewrite IHg, IHc; assumption).
    simpl. rewrite IHh, <- app_assoc, repeat_snoc. repeat split; assumption.
Qed.

Lemma created_hooks checks n :
  before_request_funcs (app (created n (imported checks))) =
  repeat validate_request_method n.
Proof.
  destruct (created_open n (imported checks)) as [H _]; [apply andb_false_r|].
  exact H.
Qed.

(** After one or more calls of [create_app] on the freshly imported module
    the middleware is installed. *)
Lemma imported_created_secured checks n : secured (created (S n) (imported checks)).
Proof.
  unfold secured. rewrite created_hooks. split; [discriminate|].
  apply Forall_forall. intros f Hf. apply repeat_spec in Hf. assumption.
Qed.

Lemma created_secured n : secured (created (S n) module_loaded).
Proof. apply imported_created_secured. Qed.

(** * The unit tests of [Wall.py], and three remarks *)

(** Each test, run first on the freshly imported module: [setUp] calls
    [create_app], then the test posts its body as [application/json]. *)

Example test_valid_submission :
  response_to (post valid_submission) (created 1 module_loaded) = success_response.
Proof. reflexivity. Qed.

Example test_sql_injection :
  status_code (response_to (post sql_injection_attempt) (created 1 module_loaded)) = 500.
Proof. vm_compute. reflexivity. Qed.

Example test_xss_attack :
  status_code (response_to (post xss_attempt) (created 1 module_loaded)) = 500.
Proof. vm_compute. reflexivity. Qed.

Example test_empty_submission :
  status_code (response_to (post empty_submission) (created 1 module_loaded)) = 200.
Proof. reflexivity. Qed.

(** On a Flask that checks, the [setUp] of a second test raises. *)
Example second_setUp_raises :
  snd (create_app (fst (wsgi_app (post valid_submission) (created 1 module_loaded)))) =
  inl AssertionError.
Proof. reflexivity. Qed.

(** A body that is not UTF-8 makes the hook raise [UnicodeDecodeError]. *)
Example undecodable_body :
  validator (post [xff]%byte) module_loaded = inl UnicodeDecodeError /\
  status_code (response_to (post [xff]%byte) (created 1 module_loaded)) = 500.
Proof. split; reflexivity. Qed.

(** Letter case is Unicode's: the long s is a form of [S], the dotted
    capital and the dotless small i are forms of [I]. *)
Example unicode_case_forms :
  search sql_injection_patterns (0x17F :: str "elect") = true /\
  search sql_injection_patterns (0x130 :: str "NSERT") = true /\
  search sql_injection_patterns (0x131 :: str "nsert") = true.
Proof. repeat split; vm_compute; reflexivity. Qed.

(** The hook is what stands between a request and the view: on the module
    as imported, before any [create_app], nothing is validated. *)
Example no_hook_before_create_app :
  before_request_funcs (app module_loaded) = [] /\
  response_to (post xss_attempt) module_loaded = success_response.
Proof. split; reflexivity. Qed.

(** * The properties of the specification *)

(** C1: a body whose text contains none of the tokens SELECT, INSERT, UPDATE,
    DELETE, DROP, [;], [--], [#], compared case-insensitively, and no
    tag-shaped substring is accepted by the validator, and the POST to
    [/submit] is answered with status 200 and the success message. *)
Theorem clean_body_accepted (form : bool) (b : bytes) (t : text) (w : World) :
  Utf8.decode b = Some t ->
  ~ contains_sql_token t ->
  ~ contains_tag t ->
  secured w ->
  accepts (validator (post_as form b) w) /\
  response_to (post_as form b) w = success_response /\
  status_code (response_to (post_as form b) w) = 200 /\
  body (response_to (post_as form b) w) =
    JsonBody (JObject [("message", "Data submitted successfully!")]%string).
Proof.
  intros Hd Hsql Hxss Hsec.
  assert (Hv : validator (post_as form b) w = inr tt).
  { destruct form; [apply validator_form|].
    change (post_as false b) with (post b).
    rewrite (validator_text b t w Hd).
    destruct (search sql_injection_patterns t) eqn:E1;
      [apply sql_search in E1; contradiction|].
    destruct (search xss_patterns t) eqn:E2;
      [apply xss_search in E2; contradiction|].
    reflexivity. }
  split; [exact Hv|].
  unfold response_to. rewrite wsgi_app_pass; [|apply Hsec|exact Hv].
  repeat split.
Qed.

Lemma clean_body_accepted_witness :
  accepts (validator (post_as false valid_submission) (created 1 module_loaded)) /\
  response_to (post_as false valid_submission) (created 1 module_loaded) =
    success_response /\
  status_code (response_to (post_as false valid_submission) (created 1 module_loaded)) =
    200 /\
  body (response_to (post_as false valid_submission) (created 1 module_loaded)) =
    JsonBody (JObject [("message", "Data submitted successfully!")]%string).
Proof.
  apply (@clean_body_accepted false valid_submission (str (json_name "John Doe"))
           (created 1 module_loaded)).
  - vm_compute. reflexivity.
  - intros H. apply sql_search in H. vm_compute in H. discriminate.
  - intros H. apply xss_search in H. vm_compute in H. discriminate.
  - apply created_secured.
Defined.







(** C4: a body whose text matches both patterns is rejected with the kind
    [sql_injection_suspected]: the SQL check comes first, and the XSS check
    is not the reported reason. *)
Theorem sql_reported_before_xss (b : bytes) (t : text) (w : World) :
  Utf8.decode b = Some t ->
  search sql_injection_patterns t = true ->
  search xss_patterns t = true ->
  rejects sql_injection_suspected (validator (post b) w) /\
  ~ rejects xss_suspected (validator (post b) w).
Proof.
  intros Hd Hsql Hxss. unfold rejects.
  rewrite (validator_text b t w Hd), Hsql. split; [reflexivity|discriminate].
Qed.

Lemma sql_reported_before_xss_witness :
  rejects sql_injection_suspected
    (validator (post (encode_ascii "<b>drop</b>")) module_loaded) /\
  ~ rejects xss_suspected
    (validator (post (encode_ascii "<b>drop</b>")) module_loaded).
Proof.
  apply (@sql_reported_before_xss (encode_ascii "<b>drop</b>") (str "<b>drop</b>")
           module_loaded).
  - vm_compute. reflexivity.
  - vm_compute. reflexivity.
  - vm_compute. reflexivity.
Defined.

(** C5: the XSS pattern is compiled without [re.IGNORECASE], and its search
    hits a text if and only if the text has a substring made of ['<'], one or
    more characters other than ['>'], and ['>']. *)
Theorem xss_check_exact :
  ignorecase (flags xss_patterns) = false /\
  forall t : text, search xss_patterns t = true <-> contains_tag t.
Proof. split; [reflexivity|]. intros t. apply xss_search. Qed.

(** C6: the empty body is accepted by the validator, and the POST to
    [/submit] with it is answered with status 200. *)
Theorem empty_body_accepted (form : bool) (w : World) :
  secured w ->
  accepts (validator (post_as form empty_submission) w) /\
  status_code (response_to (post_as form empty_submission) w) = 200.
Proof.
  intros Hsec.
  assert (Hv : validator (post_as form empty_submission) w = inr tt)
    by (destruct form; reflexivity).
  split; [exact Hv|].
  unfold response_to. rewrite wsgi_app_pass; [reflexivity|apply Hsec|exact Hv].
Qed.

Lemma empty_body_accepted_witness :
  accepts (validator (post_as false empty_submission) (created 1 module_loaded)) /\
  status_code (response_to (post_as false empty_submission) (created 1 module_loaded)) = 200.
Proof.
  apply (@empty_body_accepted false (created 1 module_loaded)). apply created_secured.
Defined.

(** C7: a body whose text contains the word deleted in any letter case is
    rejected with the kind [sql_injection_suspected], because the word
    contains DELETE as a case-insensitive substring. *)
Theorem deleted_rejected (b : bytes) (t : text) (w : World) :
  Utf8.decode b = Some t ->
  contains_caseless (str "deleted") t ->
  contains_caseless (str "DELETE") (str "deleted") /\
  rejects sql_injection_suspected (validator (post b) w).
Proof.
  intros Hd (x & HF & pre & suf & ->). split.
  - exists (str "delete"). split.
    + repeat constructor; left; reflexivity.
    + exists [], (str "d"). reflexivity.
  - unfold rejects. rewrite (validator_text b _ w Hd).
    assert (Hs : contains_sql_token (pre ++ x ++ suf)).
    { exists (str "DELETE"). split; [simpl; tauto|].
      inversion HF as [|a1 c1 l1 x1 H1 F1]; subst.
      inversion F1 as [|a2 c2 l2 x2 H2 F2]; subst.
      inversion F2 as [|a3 c3 l3 x3 H3 F3]; subst.
      inversion F3 as [|a4 c4 l4 x4 H4 F4]; subst.
      inversion F4 as [|a5 c5 l5 x5 H5 F5]; subst.
      inversion F5 as [|a6 c6 l6 x6 H6 F6]; subst.
      exists [c1; c2; c3; c4; c5; c6]. split.
      - apply Forall2_cons; [exact H1|]. apply Forall2_cons; [exact H2|].
        apply Forall2_cons; [exact H3|]. apply Forall2_cons; [exact H4|].
        apply Forall2_cons; [exact H5|]. apply Forall2_cons; [exact H6|].
        apply Forall2_nil.
      - exists pre, (x6 ++ suf). reflexivity. }
    apply sql_search in Hs. rewrite Hs. reflexivity.
Qed.

Lemma deleted_rejected_witness :
  contains_caseless (str "DELETE") (str "deleted") /\
  rejects sql_injection_suspected
    (validator (post (encode_ascii "The file was Deleted.")) module_loaded).
Proof.
  apply (@deleted_rejected (encode_ascii "The file was Deleted.")
           (str "The file was Deleted.") module_loaded).
  - vm_compute. reflexivity.
  - exists (str "Deleted"). split.
    + repeat constructor; left; reflexivity.
    + exists (str "The file was "), (str "."). reflexivity.
Defined.

(** C8 does not hold of the code.  The module run as a script serves the
    application as imported, on which [create_app] was never called: no hook
    is registered, so for the body of the XSS test, which the validator
    rejects, the view [submit_data] is called all the same and the answer is
    the success payload, not the internal server error. *)
Theorem handler_reached_without_hook :
  before_request_funcs (app module_loaded) = [] /\
  rejects xss_suspected (validator (post xss_attempt) module_loaded) /\
  In submit_data_view (called_for (post xss_attempt) module_loaded) /\
  response_to (post xss_attempt) module_loaded = success_response /\
  status_code (response_to (post xss_attempt) module_loaded) = 200.
Proof.
  split; [reflexivity|]. split; [vm_compute; reflexivity|].
  split; [vm_compute; left; reflexivity|]. split; reflexivity.
Qed.

(** C10: a body with no SQL token in which every ['<'] is at once followed
    by ['>'] or has no ['>'] after it is accepted by the validator; the pair
    of brackets with nothing in between is not a hit of the XSS pattern. *)
Theorem empty_or_lone_brackets_accepted (b : bytes) (t : text) (w : World) :
  Utf8.decode b = Some t ->
  ~ contains_sql_token t ->
  brackets_empty_or_lone t ->
  search xss_patterns (str "<>") = false /\
  accepts (validator (post b) w).
Proof.
  intros Hd Hsql Hb. split; [reflexivity|].
  unfold accepts. rewrite (validator_text b t w Hd).
  destruct (search sql_injection_patterns t) eqn:E1;
    [apply sql_search in E1; contradiction|].
  destruct (search xss_patterns t) eqn:E2; [|reflexivity].
  apply xss_search in E2. apply lone_brackets_no_tag in Hb. contradiction.
Qed.

Lemma empty_or_lone_brackets_accepted_witness :
  search xss_patterns (str "<>") = false /\
  accepts (validator (post (encode_ascii "a <> b > c < d")) module_loaded).
Proof.
  apply (@empty_or_lone_brackets_accepted (encode_ascii "a <> b > c < d")
           (str "a <> b > c < d") module_loaded).
  - vm_compute. reflexivity.
  - intros H. apply sql_search in H. vm_compute in H. discriminate.
  - apply no_tag_lone_brackets. intros H. apply xss_search in H.
    vm_compute in H. discriminate.
Defined.

(** * Further properties of the code *)

(** ** Decoding *)

Lemma decode_prefix_len (n : nat) :
  forall b1 t1 x,
    (List.length b1 <= n)%nat ->
    Utf8.decode b1 = Some t1 ->
    Utf8.decode (b1 ++ x) = option_map (List.app t1) (Utf8.decode x).
Proof.
  induction n as [|n IH]; intros b1 t1 x Hlen Hd.
  - destruct b1; [|simpl in Hlen; lia].
    simpl in Hd. injection Hd as <-. simpl. destruct (Utf8.decode x); reflexivity.
  - destruct b1 as [|b0 r0].
    { simpl in Hd. injection Hd as <-. simpl. destruct (Utf8.decode x); reflexivity. }
    simpl in Hlen. cbn [List.app]. cbn [Utf8.decode] in Hd |- *.
    destruct (byte_val b0 <? 128).
    { destruct (Utf8.decode r0) as [t0|] eqn:E0; [|discriminate].
      simpl in Hd. injection Hd as <-.
      rewrite (IH r0 t0 x) by (assumption || lia).
      destruct (Utf8.decode x); reflexivity. }
    destruct (byte_val b0 <? 194); [discriminate|].
    destruct (byte_val b0 <? 224).
    { destruct r0 as [|b1 r1]; [discriminate|]. cbn [List.app].
      destruct (Utf8.continuation (byte_val b1)); [|discriminate].
      destruct (Utf8.decode r1) as [t0|] eqn:E0; [|discriminate].
      simpl in Hd. injection Hd as <-. simpl in Hlen.
      rewrite (IH r1 t0 x) by (assumption || lia).
      destruct (Utf8.decode x); reflexivity. }
    destruct (byte_val b0 <? 240).
    { destruct r0 as [|b1 [|b2 r2]]; try discriminate. cbn [List.app].
      match goal with |- context [if ?c then _ else _] => destruct c end;
        [|discriminate].
      destruct (Utf8.decode r2) as [t0|] eqn:E0; [|discriminate].
      simpl in Hd. injection Hd as <-. simpl in Hlen.
      rewrite (IH r2 t0 x) by (assumption || lia).
      destruct (Utf8.decode x); reflexivity. }
    destruct (byte_val b0 <? 245); [|discriminate].
    destruct r0 as [|b1 [|b2 [|b3 r3]]]; try discriminate. cbn [List.app].
    match goal with |- context [if ?c then _ else _] => destruct c end;
      [|discriminate].
    destruct (Utf8.decode r3) as [t0|] eqn:E0; [|discriminate].
    simpl in Hd. injection Hd as <-. simpl in Hlen.
    rewrite (IH r3 t0 x) by (assumption || lia).
    destruct (Utf8.decode x); reflexivity.
Qed.

(** Decoding goes from left to right: what follows a decodable prefix is
    decoded on its own. *)
Lemma decode_prefix b1 t1 x :
  Utf8.decode b1 = Some t1 ->
  Utf8.decode (b1 ++ x) = option_map (List.app t1) (Utf8.decode x).
Proof. apply (decode_prefix_len (List.length b1)). lia. Qed.

Lemma decode_ascii_bytes b :
  Forall (fun x => byte_val x < 128) b ->
  Utf8.decode b = Some (map byte_val b).
Proof.
  induction 1 as [|x b Hx _ IH]; [reflexivity|].
  cbn [Utf8.decode map]. apply Z.ltb_lt in Hx. rewrite Hx, IH. reflexivity.
Qed.

(** ** The matcher on related subjects *)

Lemma same_case_tolower a b :
  same_ascii_case a b -> Unicode.tolower a = Unicode.tolower b.
Proof.
  intros [->|[[Ha ->]|[Ha ->]]]; [reflexivity| |];
    destruct (tolower_cases a) as [[La ->]|[[La ->]|[[La ->]|(La & _ & _ & ->)]]];
    try lia.
  - destruct (tolower_cases (a + 32))
      as [[Lb ->]|[[Lb ->]|[[Lb ->]|(Lb & _ & _ & ->)]]]; lia.
  - destruct (tolower_cases (a - 32))
      as [[Lb ->]|[[Lb ->]|[[Lb ->]|(Lb & _ & _ & ->)]]]; lia.
Qed.

Lemma case_blind_op o a b :
  case_blind o = true -> same_ascii_case a b -> op_match o a = op_match o b.
Proof.
  intros Hcb Hab.
  assert (Hplain : forall av, negb (ascii_letter av) = true -> (a =? av) = (b =? av)).
  { intros av Hav. apply negb_true_iff in Hav. unfold ascii_letter in Hav.
    apply orb_false_iff in Hav. destruct Hav as [Hu Hl].
    destruct Hab as [->|[[Ha ->]|[Ha ->]]]; [reflexivity| |];
      destruct (Z.eqb_spec a av) as [->|Hne];
      bool_to_Z;
      match goal with
      | |- context [?x =? ?y] => destruct (Z.eqb_spec x y)
      end; try reflexivity; lia. }
  destruct o as [av|av|lo|lo|neg set]; simpl in *.
  - apply Hplain. assumption.
  - f_equal. apply Hplain. assumption.
  - rewrite (same_case_tolower a b Hab). reflexivity.
  - rewrite (same_case_tolower a b Hab). reflexivity.
  - rewrite (same_case_tolower a b Hab). reflexivity.
Qed.

Lemma repeat_one_related o :
  case_blind o = true ->
  forall s s' k k',
    Forall2 same_ascii_case s s' ->
    (forall u u', Forall2 same_ascii_case u u' -> k u = k' u') ->
    repeat_one o s k = repeat_one o s' k'.
Proof.
  intros Hcb s s' k k' HF Hk. induction HF as [|a b s s' Hab HF IH]; simpl.
  - reflexivity.
  - rewrite (case_blind_op o a b Hcb Hab), IH, (Hk s s' HF). reflexivity.
Qed.

Lemma sre_match_related c :
  forallb case_blind (opcodes c) = true ->
  forall s s' k k',
    Forall2 same_ascii_case s s' ->
    (forall u u', Forall2 same_ascii_case u u' -> k u = k' u') ->
    sre_match c s k = sre_match c s' k'.
Proof.
  induction c as [|o|o|c IHc d IHd|c IHc d IHd]; simpl; intros Hcb s s' k k' HF Hk.
  - apply Hk. assumption.
  - apply andb_true_iff in Hcb. destruct Hcb as [Hcb _].
    destruct HF as [|a b s s' Hab HF]; [reflexivity|].
    rewrite (case_blind_op o a b Hcb Hab), (Hk s s' HF). reflexivity.
  - apply andb_true_iff in Hcb. destruct Hcb as [Hcb _].
    apply repeat_one_related; assumption.
  - rewrite forallb_app in Hcb. apply andb_true_iff in Hcb. destruct Hcb as [H1 H2].
    apply IHc; [assumption..|].
    intros u u' Hu. apply IHd; assumption.
  - rewrite forallb_app in Hcb. apply andb_true_iff in Hcb. destruct Hcb as [H1 H2].
    rewrite (IHc H1 s s' k k' HF Hk), (IHd H2 s s' k k' HF Hk). reflexivity.
Qed.

Lemma scan_related c s s' :
  forallb case_blind (opcodes c) = true ->
  Forall2 same_ascii_case s s' ->
  scan c s = scan c s'.
Proof.
  intros Hcb HF. induction HF as [|a b s s' Hab HF IH]; [reflexivity|].
  cbn [scan]. rewrite IH. f_equal.
  unfold match_at. apply sre_match_related; [assumption| |reflexivity].
  constructor; assumption.
Qed.

(** A hit stays a hit when the subject is extended on either side. *)
Lemma search_extend p t pre suf :
  search p t = true -> search p (pre ++ t ++ suf) = true.
Proof.
  rewrite !search_spec. intros (w & Hm & pre' & suf' & ->).
  exists w. split; [assumption|].
  exists (pre ++ pre'), (suf' ++ suf). rewrite <- !app_assoc. reflexivity.
Qed.

(** ** The dispatch in any state *)

Lemma invoke_shape f request :
  exists res, forall w, invoke f request w = (logged w [f], res).
Proof.
  destruct f.
  - exists (match validator request module_loaded with
            | inl e => inl e
            | inr _ => inr None
            end).
    intros w. rewrite invoke_validate, (validator_frame request w module_loaded).
    reflexivity.
  - exists (inr (Some success_response)). intros w. reflexivity.
Qed.

Lemma run_hooks_shape fs request :
  exists gs res, forall w, run_hooks fs request w = (logged w gs, res).
Proof.
  induction fs as [|f fs (gs & res & IH)].
  - exists [], (inr None). intros w. simpl. unfold ret. rewrite logged_nil. reflexivity.
  - destruct (invoke_shape f request) as (r & Hr).
    destruct r as [e|[resp|]].
    + exists [f], (inl e). intros w. simpl. unfold bind. rewrite Hr. reflexivity.
    + exists [f], (inr (Some resp)). intros w. simpl. unfold bind. rewrite Hr. reflexivity.
    + exists (f :: gs), res. intros w. simpl. unfold bind. rewrite Hr, IH.
      rewrite logged_logged. reflexivity.
Qed.

Lemma wsgi_app_shape fs request :
  exists gs resp,
    forall w, before_request_funcs (app w) = fs ->
              wsgi_app request w = (logged (served w) gs, resp).
Proof.
  destruct (run_hooks_shape fs request) as (gs & res & Hrun).
  destruct res as [e|[resp|]].
  - exists gs, (handle_exception e). intros w <-.
    unfold wsgi_app, full_dispatch_request, preprocess_request, bind, get, modify.
    change (before_request_funcs (app (served w))) with (before_request_funcs (app w)).
    rewrite Hrun. reflexivity.
  - exists gs, resp. intros w <-.
    unfold wsgi_app, full_dispatch_request, preprocess_request, bind, get, modify.
    change (before_request_funcs (app (served w))) with (before_request_funcs (app w)).
    rewrite Hrun. reflexivity.
  - exists (gs ++ [submit_data_view]), success_response. intros w <-.
    unfold wsgi_app, full_dispatch_request, preprocess_request, bind, get, modify.
    change (before_request_funcs (app (served w))) with (before_request_funcs (app w)).
    rewrite Hrun.
    unfold dispatch_request, invoke, submit_data, bind, modify, ret. simpl.
    rewrite <- logged_logged. reflexivity.
Qed.

(** [create_app] either appends the validator or changes nothing. *)
Lemma create_app_cases w :
  (create_app w = (w, inl AssertionError) /\
   checks_setup (app w) && got_first_request (app w) = true) \/
  (snd (create_app w) = inr tt /\
   checks_setup (app w) && got_first_request (app w) = false /\
   before_request_funcs (app (fst (create_app w))) =
     before_request_funcs (app w) ++ [validate_request_method]).
Proof.
  destruct (checks_setup (app w) && got_first_request (app w)) eqn:E.
  - left. split; [apply create_app_closed; assumption|reflexivity].
  - right. rewrite (create_app_open w E). repeat split.
Qed.

Lemma reachable_hooks w :
  reachable w ->
  Forall (fun f => f = validate_request_method) (before_request_funcs (app w)).
Proof.
  induction 1 as [checks|w Hw IH|w request Hw IH].
  - constructor.
  - destruct (create_app_cases w) as [[E _]|(_ & _ & E)]; rewrite E.
    + assumption.
    + apply Forall_app. split; [assumption|]. constructor; [reflexivity|constructor].
  - destruct (wsgi_app_shape (before_request_funcs (app w)) request) as (gs & resp & H).
    rewrite (H w eq_refl). assumption.
Qed.

(** With no hook the view answers. *)
Lemma wsgi_app_pass_any request w :
  before_request_funcs (app w) = [] ->
  wsgi_app request w =
  (logged (served w) (before_request_funcs (app w) ++ [submit_data_view]),
   success_response).
Proof.
  intros Hnone.
  unfold wsgi_app, full_dispatch_request, preprocess_request, bind, get, modify.
  change (before_request_funcs (app (served w))) with (before_request_funcs (app w)).
  rewrite Hnone. reflexivity.
Qed.

(** ** The outcomes of the validator, exactly *)

Lemma accepts_iff_clean_data request w :
  accepts (validator request w) <->
  exists t, Utf8.decode (data request) = Some t /\
            ~ contains_sql_token t /\ ~ contains_tag t.
Proof.
  unfold accepts, validator. rewrite validate_request_run. cbn [snd].
  destruct (Utf8.decode (data request)) as [t|].
  - pose proof (sql_search t) as Hs. pose proof (xss_search t) as Hx.
    destruct (search sql_injection_patterns t), (search xss_patterns t); split;
      try discriminate;
      try (intros (t' & E & H1 & H2); injection E as <-; exfalso;
           first [apply H1, Hs; reflexivity | apply H2, Hx; reflexivity]).
    + intros _. exists t.
      repeat split; [intros H; apply Hs in H|intros H; apply Hx in H];
        discriminate.
    + reflexivity.
  - split; [discriminate|]. intros (t' & E & _). discriminate.
Qed.

Lemma accepts_iff_clean b w :
  accepts (validator (post b) w) <->
  exists t, Utf8.decode b = Some t /\ ~ contains_sql_token t /\ ~ contains_tag t.
Proof. apply (accepts_iff_clean_data (post b) w). Qed.



(** X2: after [n] calls of [create_app] on the imported module an accepted
    request runs the validator [n] times and then the view; a rejected
    request runs the validator once and nothing else. *)
Theorem validator_runs_per_hook (checks : bool) (n : nat) (b : bytes) :
  (accepts (validator (post b) (created n (imported checks))) ->
   called_for (post b) (created n (imported checks)) =
     repeat validate_request_method n ++ [submit_data_view]) /\
  (forall kind,
     rejects kind (validator (post b) (created (S n) (imported checks))) ->
     called_for (post b) (created (S n) (imported checks)) = [validate_request_method]).
Proof.
  split.
  - intros Hacc. unfold called_for.
    rewrite wsgi_app_pass; [|rewrite created_hooks|exact Hacc].
    + cbn [fst]. rewrite skipn_served_logged, created_hooks. reflexivity.
    + apply Forall_forall. intros f Hf. apply repeat_spec in Hf. assumption.
  - intros kind Hrej. unfold called_for.
    rewrite (wsgi_app_raise (post b) (created (S n) (imported checks)) kind
               (imported_created_secured checks n) Hrej).
    cbn [fst]. apply skipn_served_logged.
Qed.

(** X3: once the middleware is installed, the response to a request does
    not depend on the state: not on how many times the hook is registered,
    and not on what was served before. *)
Theorem response_same_once_secured (request : Request) (w1 w2 : World) :
  secured w1 -> secured w2 ->
  response_to request w1 = response_to request w2.
Proof.
  intros H1 H2. unfold response_to.
  destruct (validator request w1) as [e|[]] eqn:Hv.
  - rewrite (wsgi_app_raise request w1 e H1 Hv).
    rewrite (validator_frame request w1 w2) in Hv.
    rewrite (wsgi_app_raise request w2 e H2 Hv). reflexivity.
  - rewrite (wsgi_app_pass request w1 (proj2 H1) Hv).
    rewrite (validator_frame request w1 w2) in Hv.
    rewrite (wsgi_app_pass request w2 (proj2 H2) Hv). reflexivity.
Qed.

Lemma response_same_once_secured_witness :
  response_to (post sql_injection_attempt) (created 1 module_loaded) =
  response_to (post sql_injection_attempt)
    (fst (wsgi_app (post valid_submission) (created 3 module_loaded))).
Proof.
  apply (response_same_once_secured (post sql_injection_attempt)
           (created 1 module_loaded)
           (fst (wsgi_app (post valid_submission) (created 3 module_loaded)))).
  - apply created_secured.
  - split; [discriminate|]. vm_compute. repeat constructor.
Defined.

(** X4: serving a request never adds or removes a hook, whatever the request
    and the state, and it leaves the application marked as having handled a
    request. *)
Theorem request_keeps_hooks (request : Request) (w : World) :
  before_request_funcs (app (fst (wsgi_app request w))) = before_request_funcs (app w) /\
  got_first_request (app (fst (wsgi_app request w))) = true /\
  checks_setup (app (fst (wsgi_app request w))) = checks_setup (app w).
Proof.
  destruct (wsgi_app_shape (before_request_funcs (app w)) request) as (gs & resp & H).
  rewrite (H w eq_refl). repeat split.
Qed.

(** X5: requests do not influence each other: in every state, the response
    to a request and the functions called for it are the same whether or
    not another request was served just before. *)
Theorem requests_independent (r1 r2 : Request) (w : World) :
  response_to r2 (fst (wsgi_app r1 w)) = response_to r2 w /\
  called_for r2 (fst (wsgi_app r1 w)) = called_for r2 w.
Proof.
  unfold response_to, called_for.
  destruct (wsgi_app_shape (before_request_funcs (app w)) r1) as (gs1 & resp1 & H1).
  destruct (wsgi_app_shape (before_request_funcs (app w)) r2) as (gs2 & resp2 & H2).
  rewrite (H1 w eq_refl). cbn [fst].
  rewrite (H2 (logged (served w) gs1) eq_refl), (H2 w eq_refl). cbn [fst snd].
  rewrite !skipn_served_logged. split; reflexivity.
Qed.

(** X6: a request whose [request.data] is not valid UTF-8 makes the
    validator raise [UnicodeDecodeError] at its first [decode]; with the
    middleware installed the answer is the internal server error and the
    view is not called. *)
Theorem undecodable_body_refused (request : Request) (w : World) :
  Utf8.decode (data request) = None ->
  secured w ->
  rejects UnicodeDecodeError (validator request w) /\
  response_to request w = {| status_code := 500; body := InternalServerErrorPage |} /\
  ~ In submit_data_view (called_for request w).
Proof.
  intros Hd Hsec.
  assert (Hv : validator request w = inl UnicodeDecodeError).
  { unfold validator. rewrite validate_request_run, Hd. reflexivity. }
  split; [exact Hv|].
  unfold response_to, called_for.
  rewrite (wsgi_app_raise request w UnicodeDecodeError Hsec Hv).
  cbn [fst]. rewrite skipn_served_logged. split; [reflexivity|].
  simpl. intros [H|[]]. discriminate.
Qed.

Lemma undecodable_body_refused_witness :
  rejects UnicodeDecodeError (validator (post [xc3; x28]%byte) (created 1 module_loaded)) /\
  response_to (post [xc3; x28]%byte) (created 1 module_loaded) =
    {| status_code := 500; body := InternalServerErrorPage |} /\
  ~ In submit_data_view (called_for (post [xc3; x28]%byte) (created 1 module_loaded)).
Proof.
  apply (undecodable_body_refused (post [xc3; x28]%byte) (created 1 module_loaded)).
  - vm_compute. reflexivity.
  - apply created_secured.
Defined.

(** X7: with the middleware installed a POST to [/submit] has one of two
    answers, the success response or the internal server error, and it is
    the success response exactly when [request.data], which is the body
    unless the body was parsed as form data, is valid UTF-8 and its text has
    neither an SQL token nor a tag-shaped substring. *)
Theorem success_exactly_when_clean (request : Request) (w : World) :
  secured w ->
  (response_to request w = success_response <->
   exists t, Utf8.decode (data request) = Some t /\
             ~ contains_sql_token t /\ ~ contains_tag t) /\
  (response_to request w = success_response \/
   response_to request w = {| status_code := 500; body := InternalServerErrorPage |}).
Proof.
  intros Hsec. rewrite <- (accepts_iff_clean_data request w).
  unfold accepts, response_to.
  destruct (validator request w) as [e|[]] eqn:Hv.
  - rewrite (wsgi_app_raise request w e Hsec Hv). cbn [snd]. split.
    + split; discriminate.
    + right. reflexivity.
  - rewrite (wsgi_app_pass request w (proj2 Hsec) Hv). cbn [snd]. split.
    + split; reflexivity.
    + left. reflexivity.
Qed.

Lemma success_exactly_when_clean_witness :
  (response_to (post valid_submission) (created 1 module_loaded) = success_response <->
   exists t, Utf8.decode (data (post valid_submission)) = Some t /\
             ~ contains_sql_token t /\ ~ contains_tag t) /\
  (response_to (post valid_submission) (created 1 module_loaded) = success_response \/
   response_to (post valid_submission) (created 1 module_loaded) =
     {| status_code := 500; body := InternalServerErrorPage |}).
Proof.
  apply (success_exactly_when_clean (post valid_submission) (created 1 module_loaded)).
  apply created_secured.
Defined.

(** X8: the four outcomes of the validator, each with the bodies that
    produce it: it returns on a decodable text with no token and no tag, it
    raises the SQL error exactly on a decodable text with a token, the XSS
    error exactly on a decodable text with a tag and no token, and
    [UnicodeDecodeError] exactly on a body that is not UTF-8. *)
Theorem validator_outcomes (b : bytes) (w : World) :
  (accepts (validator (post b) w) <->
   exists t, Utf8.decode b = Some t /\ ~ contains_sql_token t /\ ~ contains_tag t) /\
  (rejects sql_injection_suspected (validator (post b) w) <->
   exists t, Utf8.decode b = Some t /\ contains_sql_token t) /\
  (rejects xss_suspected (validator (post b) w) <->
   exists t, Utf8.decode b = Some t /\ ~ contains_sql_token t /\ contains_tag t) /\
  (rejects UnicodeDecodeError (validator (post b) w) <-> Utf8.decode b = None).
Proof.
  split; [apply accepts_iff_clean|].
  unfold rejects, validator. rewrite validate_request_run.
  change (data (post b)) with b. cbn [snd].
  destruct (Utf8.decode b) as [t|].
  - pose proof (sql_search t) as Hs. pose proof (xss_search t) as Hx.
    destruct (search sql_injection_patterns t), (search xss_patterns t);
      repeat split; try discriminate; try reflexivity;
      try (intros _; exists t; repeat split;
           first [apply Hs; reflexivity | apply Hx; reflexivity
                 | intros H; apply Hs in H; discriminate]);
      try (intros (t' & E & H1); injection E as <-;
           first [apply Hs in H1; discriminate
                 | destruct H1 as [H1 H2];
                   first [exfalso; apply H1, Hs; reflexivity
                         | apply Hx in H2; discriminate]]).
  - repeat split; try discriminate; try reflexivity;
      intros (t' & E & _); discriminate.
Qed.

(** X9: a decodable body that the validator rejects stays rejected when it
    is put after any decodable bytes and before any bytes at all. *)
Theorem rejection_survives_embedding (b1 b b2 : bytes) (t1 t : text)
        (e : Exception) (w : World) :
  Utf8.decode b1 = Some t1 ->
  Utf8.decode b = Some t ->
  rejects e (validator (post b) w) ->
  exists e', rejects e' (validator (post (b1 ++ b ++ b2)) w).
Proof.
  intros H1 Hb Hrej. unfold rejects, validator in *.
  rewrite validate_request_run, data_post in *. cbn [snd] in *. rewrite Hb in Hrej.
  rewrite (decode_prefix b1 t1 (b ++ b2) H1), (decode_prefix b t b2 Hb).
  destruct (Utf8.decode b2) as [t2|]; simpl; [|eauto].
  destruct (search sql_injection_patterns t) eqn:Es.
  - rewrite (search_extend sql_injection_patterns t t1 t2 Es). eauto.
  - destruct (search xss_patterns t) eqn:Ex; [|discriminate].
    rewrite (search_extend xss_patterns t t1 t2 Ex).
    destruct (search sql_injection_patterns (t1 ++ t ++ t2)); eauto.
Qed.

Lemma rejection_survives_embedding_witness :
  exists e',
    rejects e' (validator (post (encode_ascii "name=" ++ encode_ascii "<b>" ++ [xff]%byte))
                          module_loaded).
Proof.
  apply (rejection_survives_embedding (encode_ascii "name=") (encode_ascii "<b>")
           [xff]%byte (str "name=") (str "<b>") xss_suspected module_loaded).
  - vm_compute. reflexivity.
  - vm_compute. reflexivity.
  - vm_compute. reflexivity.
Defined.

(** X10: the validator does not see the case of ASCII letters: two bodies
    whose texts differ only in the case of ASCII letters have the same
    outcome. *)
Theorem ascii_case_blind (b1 b2 : bytes) (t1 t2 : text) (w1 w2 : World) :
  Utf8.decode b1 = Some t1 ->
  Utf8.decode b2 = Some t2 ->
  Forall2 same_ascii_case t1 t2 ->
  validator (post b1) w1 = validator (post b2) w2.
Proof.
  intros H1 H2 HF.
  rewrite (validator_text b1 t1 w1 H1), (validator_text b2 t2 w2 H2).
  unfold search.
  rewrite (scan_related (prog sql_injection_patterns) t1 t2 eq_refl HF).
  rewrite (scan_related (prog xss_patterns) t1 t2 eq_refl HF).
  reflexivity.
Qed.

Lemma ascii_case_blind_witness :
  validator (post (encode_ascii "Drop it")) module_loaded =
  validator (post (encode_ascii "dROP It")) (created 1 module_loaded).
Proof.
  apply (ascii_case_blind (encode_ascii "Drop it") (encode_ascii "dROP It")
           [68; 114; 111; 112; 32; 105; 116] [100; 82; 79; 80; 32; 73; 116]
           module_loaded (created 1 module_loaded)).
  - vm_compute. reflexivity.
  - vm_compute. reflexivity.
  - repeat (apply Forall2_cons; [unfold same_ascii_case; lia|]). apply Forall2_nil.
Defined.

(** X11: the XSS search misses a text exactly when every ['<'] in it is at
    once followed by ['>'] or has no ['>'] anywhere after it. *)
Theorem xss_miss_iff_brackets (t : text) :
  search xss_patterns t = false <-> brackets_empty_or_lone t.
Proof.
  split.
  - intros Hmiss. apply no_tag_lone_brackets. intros Htag.
    apply xss_search in Htag. congruence.
  - intros Hb. destruct (search xss_patterns t) eqn:E; [|reflexivity].
    apply xss_search in E. apply lone_brackets_no_tag in Hb. contradiction.
Qed.

(** X12: the validation is only as present as the hook: in a state with no
    hook, as the module is right after import and as [app.run] serves it
    under [__main__], every body is answered with the success response and
    only the view is called. *)
Theorem no_hook_no_validation (b : bytes) (w : World) :
  before_request_funcs (app w) = [] ->
  response_to (post b) w = success_response /\
  called_for (post b) w = [submit_data_view].
Proof.
  intros Hnone. unfold response_to, called_for.
  rewrite wsgi_app_pass_any.
  - rewrite Hnone. cbn [fst snd]. rewrite skipn_served_logged. split; reflexivity.
  - rewrite Hnone. reflexivity.
Qed.

Lemma no_hook_no_validation_witness :
  response_to (post sql_injection_attempt) module_loaded = success_response /\
  called_for (post sql_injection_attempt) module_loaded = [submit_data_view].
Proof.
  apply (no_hook_no_validation sql_injection_attempt module_loaded). reflexivity.
Defined.

(** X13: in every state the program can reach in which the [create_app] of
    [setUp] does not raise, the four tests of [TestSecurityMiddleware] pass:
    after that [create_app] the valid and the empty submission get status
    200, the valid one with the success message, and the two attacks get
    status 500. *)
Theorem unit_tests_pass_after_setUp (w : World) :
  reachable w ->
  snd (create_app w) = inr tt ->
  response_to (post valid_submission) (fst (create_app w)) = success_response /\
  status_code (response_to (post sql_injection_attempt) (fst (create_app w))) = 500 /\
  status_code (response_to (post xss_attempt) (fst (create_app w))) = 500 /\
  status_code (response_to (post empty_submission) (fst (create_app w))) = 200.
Proof.
  intros Hr Hok.
  assert (Hsec : secured (fst (create_app w))).
  { apply reachable_hooks in Hr.
    destruct (create_app_cases w) as [[E _]|(_ & _ & E)].
    - rewrite E in Hok. discriminate.
    - unfold secured. rewrite E. split.
      + destruct (before_request_funcs (app w)); discriminate.
      + apply Forall_app. split; [assumption|]. constructor; [reflexivity|constructor]. }
  set (w' := fst (create_app w)) in *. unfold response_to.
  assert (Hpass : forall b, validator (post b) module_loaded = inr tt ->
                            snd (wsgi_app (post b) w') = success_response).
  { intros b Hv. rewrite (validator_frame (post b) module_loaded w') in Hv.
    rewrite (wsgi_app_pass (post b) w' (proj2 Hsec) Hv). reflexivity. }
  assert (Hfail : forall b e, validator (post b) module_loaded = inl e ->
                              status_code (snd (wsgi_app (post b) w')) = 500).
  { intros b e Hv. rewrite (validator_frame (post b) module_loaded w') in Hv.
    rewrite (wsgi_app_raise (post b) w' e Hsec Hv). reflexivity. }
  repeat split.
  - apply Hpass. vm_compute. reflexivity.
  - apply Hfail with (e := sql_injection_suspected). vm_compute. reflexivity.
  - apply Hfail with (e := xss_suspected). vm_compute. reflexivity.
  - rewrite Hpass; reflexivity.
Qed.

Lemma unit_tests_pass_after_setUp_witness :
  response_to (post valid_submission)
    (fst (create_app (fst (wsgi_app (post xss_attempt) (created 1 (imported false)))))) =
    success_response /\
  status_code
    (response_to (post sql_injection_attempt)
       (fst (create_app (fst (wsgi_app (post xss_attempt) (created 1 (imported false)))))))
    = 500 /\
  status_code
    (response_to (post xss_attempt)
       (fst (create_app (fst (wsgi_app (post xss_attempt) (created 1 (imported false)))))))
    = 500 /\
  status_code
    (response_to (post empty_submission)
       (fst (create_app (fst (wsgi_app (post xss_attempt) (created 1 (imported false)))))))
    = 200.
Proof.
  apply (unit_tests_pass_after_setUp
           (fst (wsgi_app (post xss_attempt) (created 1 (imported false))))).
  - apply reach_request. apply (reach_create_app (imported false)). apply reach_import.
  - reflexivity.
Defined.

(** ** A filter on single characters *)

Lemma caseless_start a c :
  In a [83; 73; 85; 68; 59; 45; 35] ->
  caseless a c ->
  In c [83; 115; 0x17F; 73; 105; 0x130; 0x131; 85; 117; 68; 100; 59; 45; 35; 60].
Proof.
  intros Ha Hc. unfold caseless in Hc. simpl In in *.
  destruct (tolower_cases a) as [[La La']|[[La La']|[[La La']|(La & _ & _ & La')]]];
    try lia;
    (destruct (toupper_cases a) as [[Ua Ua']|[[Ua Ua']|[[Ua Ua']|(Ua & _ & _ & Ua')]]];
     try lia);
    rewrite La', Ua' in Hc; clear La' Ua';
    (destruct (tolower_cases c) as [[Lc Lc']|[[Lc Lc']|[[Lc Lc']|(Lc & Lc1 & Lc2 & Lc')]]]);
    (destruct (toupper_cases c) as [[Uc Uc']|[[Uc Uc']|[[Uc Uc']|(Uc & Uc1 & Uc2 & Uc')]]];
     try lia);
    rewrite Lc', Uc' in Hc; lia.
Qed.

Lemma sql_token_start t :
  contains_sql_token t -> exists ch, In ch t /\ hit_start ch = true.
Proof.
  intros (tok & Hin & w & HF & pre & suf & ->).
  assert (Hhd : exists a rest, tok = a :: rest /\ In a [83; 73; 85; 68; 59; 45; 35]).
  { simpl in Hin.
    repeat (destruct Hin as [<-|Hin];
            [eexists; eexists; split; [reflexivity|vm_compute; tauto]|]).
    destruct Hin. }
  destruct Hhd as (a & rest & -> & Ha).
  inversion HF as [|a' c l w' Hc HF']; subst.
  exists c. split.
  - apply in_or_app. right. left. reflexivity.
  - unfold hit_start, in_set. apply existsb_exists. exists c.
    split; [|apply Z.eqb_refl].
    apply (caseless_start a c Ha Hc).
Qed.

Lemma tag_start t :
  contains_tag t -> exists ch, In ch t /\ hit_start ch = true.
Proof.
  intros (w & (mid & -> & _ & _) & pre & suf & ->).
  exists lt_sign. split; [|reflexivity].
  apply in_or_app. right. left. reflexivity.
Qed.

(** X14: a hit of either pattern begins with a case form of S, I, U or D or
    with one of [;], [-], [#], [<]; so a body whose text has none of these
    characters is accepted, whatever else it contains. *)
Theorem inert_text_accepted (b : bytes) (t : text) (w : World) :
  Utf8.decode b = Some t ->
  forallb (fun ch => negb (hit_start ch)) t = true ->
  accepts (validator (post b) w).
Proof.
  intros Hd Hinert. apply accepts_iff_clean. exists t.
  assert (Hno : forall ch, In ch t -> hit_start ch = true -> False).
  { intros ch Hin Hhit. rewrite forallb_forall in Hinert.
    apply Hinert in Hin. rewrite Hhit in Hin. discriminate. }
  repeat split; [assumption| |].
  - intros H. destruct (sql_token_start t H) as (ch & Hin & Hhit). eauto.
  - intros H. destruct (tag_start t H) as (ch & Hin & Hhit). eauto.
Qed.

Lemma inert_text_accepted_witness :
  accepts (validator (post (encode_ascii "CALL ME > 042 (or 43)")) module_loaded).
Proof.
  apply (inert_text_accepted (encode_ascii "CALL ME > 042 (or 43)")
           (str "CALL ME > 042 (or 43)") module_loaded).
  - vm_compute. reflexivity.
  - vm_compute. reflexivity.
Defined.

(** X15: a body of bytes below 0x80 is its own text: it decodes byte for
    byte, so the validator never refuses it for its encoding. *)
Theorem ascii_body_decodes (b : bytes) (w : World) :
  Forall (fun x => byte_val x < 128) b ->
  Utf8.decode b = Some (map byte_val b) /\
  ~ rejects UnicodeDecodeError (validator (post b) w).
Proof.
  intros Hascii. pose proof (decode_ascii_bytes b Hascii) as Hd.
  split; [assumption|].
  unfold rejects. rewrite (validator_text b _ w Hd).
  destruct (search sql_injection_patterns (map byte_val b)); [discriminate|].
  destruct (search xss_patterns (map byte_val b)); discriminate.
Qed.

Lemma ascii_body_decodes_witness :
  Utf8.decode valid_submission = Some (map byte_val valid_submission) /\
  ~ rejects UnicodeDecodeError (validator (post valid_submission) module_loaded).
Proof.
  apply (ascii_body_decodes valid_submission module_loaded).
  apply Forall_forall. intros x Hx.
  assert (H : forallb (fun y => byte_val y <? 128) valid_submission = true)
    by (vm_compute; reflexivity).
  rewrite forallb_forall in H. apply Z.ltb_lt. apply H. assumption.
Defined.

(** X16: the only function that ever becomes a hook is the validator: in
    every state the program can reach, the hooks are a number of copies of
    it. *)
Theorem hooks_are_validators (w : World) :
  reachable w ->
  exists n, before_request_funcs (app w) = repeat validate_request_method n.
Proof.
  intros Hr. apply reachable_hooks in Hr.
  induction Hr as [|f fs -> _ [n IH]].
  - exists O. reflexivity.
  - exists (S n). simpl. rewrite IH. reflexivity.
Qed.

Lemma hooks_are_validators_witness :
  exists n,
    before_request_funcs
      (app (fst (wsgi_app (post xss_attempt) (fst (create_app module_loaded))))) =
    repeat validate_request_method n.
Proof.
  apply (hooks_are_validators
           (fst (wsgi_app (post xss_attempt) (fst (create_app module_loaded))))).
  apply reach_request. apply (reach_create_app module_loaded). apply (reach_import true).
Defined.

(** ** The setup after the first request, and bodies sent as forms *)

(** X17: on a Flask that checks, once any request has been handled
    [create_app] raises [AssertionError] and registers nothing, however
    often it is called: the hooks stay as they were when the first request
    came in. *)
Theorem setup_closed_after_request (request : Request) (n : nat) (w : World) :
  checks_setup (app w) = true ->
  snd (create_app (fst (wsgi_app request w))) = inl AssertionError /\
  created n (fst (wsgi_app request w)) = fst (wsgi_app request w) /\
  before_request_funcs (app (created n (fst (wsgi_app request w)))) =
    before_request_funcs (app w).
Proof.
  intros Hchecks.
  destruct (wsgi_app_shape (before_request_funcs (app w)) request) as (gs & resp & H).
  rewrite (H w eq_refl). cbn [fst].
  assert (Hclosed : create_app (logged (served w) gs) =
                    (logged (served w) gs, inl AssertionError)).
  { apply create_app_closed. cbn. rewrite Hchecks. reflexivity. }
  assert (Hn : created n (logged (served w) gs) = logged (served w) gs).
  { induction n as [|n IH]; [reflexivity|].
    change (created (S n) (logged (served w) gs))
      with (fst (create_app (created n (logged (served w) gs)))).
    rewrite IH, Hclosed. reflexivity. }
  rewrite Hclosed, Hn. repeat split.
Qed.

Lemma setup_closed_after_request_witness :
  snd (create_app (fst (wsgi_app (post valid_submission) (created 1 module_loaded)))) =
    inl AssertionError /\
  created 3 (fst (wsgi_app (post valid_submission) (created 1 module_loaded))) =
    fst (wsgi_app (post valid_submission) (created 1 module_loaded)) /\
  before_request_funcs
    (app (created 3 (fst (wsgi_app (post valid_submission) (created 1 module_loaded))))) =
    before_request_funcs (app (created 1 module_loaded)).
Proof.
  apply (setup_closed_after_request (post valid_submission) 3 (created 1 module_loaded)).
  reflexivity.
Defined.

(** X18: a body sent as a form is not validated: [request.data] is empty,
    the validator accepts, and in every state the program can reach the
    answer is the success response, whatever the body contains. *)
Theorem form_body_not_validated (b : bytes) (w : World) :
  reachable w ->
  data (post_form b) = [] /\
  accepts (validator (post_form b) w) /\
  response_to (post_form b) w = success_response.
Proof.
  intros Hr. split; [reflexivity|]. split; [apply validator_form|].
  unfold response_to.
  rewrite wsgi_app_pass; [reflexivity|apply reachable_hooks; assumption|].
  apply validator_form.
Qed.

Lemma form_body_not_validated_witness :
  data (post_form xss_attempt) = [] /\
  accepts (validator (post_form xss_attempt) (created 1 module_loaded)) /\
  response_to (post_form xss_attempt) (created 1 module_loaded) = success_response.
Proof.
  apply (form_body_not_validated xss_attempt (created 1 module_loaded)).
  apply (reach_create_app module_loaded). apply (reach_import true).
Defined.

(** X19: with the middleware installed, a request the validator rejects
    does not reach the view: [submit_data] is not among the functions called
    for it, and the answer is the internal server error. *)
Theorem hook_guards_view (request : Request) (kind : Exception) (w : World) :
  secured w ->
  rejects kind (validator request w) ->
  ~ In submit_data_view (called_for request w) /\
  called_for request w = [validate_request_method] /\
  response_to request w = {| status_code := 500; body := InternalServerErrorPage |}.
Proof.
  intros Hsec Hrej. unfold called_for, response_to.
  rewrite (wsgi_app_raise request w kind Hsec Hrej). cbn [fst snd].
  rewrite skipn_served_logged. repeat split.
  simpl. intros [H|[]]. discriminate.
Qed.

Lemma hook_guards_view_witness :
  ~ In submit_data_view (called_for (post xss_attempt) (created 2 module_loaded)) /\
  called_for (post xss_attempt) (created 2 module_loaded) = [validate_request_method] /\
  response_to (post xss_attempt) (created 2 module_loaded) =
    {| status_code := 500; body := InternalServerErrorPage |}.
Proof.
  apply (hook_guards_view (post xss_attempt) xss_suspected (created 2 module_loaded)).
  - apply created_secured.
  - vm_compute. reflexivity.
Defined.
